(** * go-optional: the [Optional[T]] container and its JSON adapter

    A shallow embedding of [pkg/optional/optional.go].

    - A Go struct is a record; the zero value of a type is a member of
      the class [Zero].
    - Go variables that can be pointed to live in a [heap], a list of
      cells addressed by their index; allocation appends a cell.  A Go
      pointer is [Nil] or [Ptr l].
    - Methods with a value receiver take the container by value.
      [Set_] and [Unset], which have a pointer receiver, are written as
      transformers of the pointee; [invoke] runs such a method through
      a pointer into the heap.
    - [encoding/json] is outside the package: the codec of the value
      type [T] is the class [JSON], with Go's result shapes
      ([[]byte, error] and an [error] next to the decoded target). *)

From Stdlib Require Import ZArith List Bool Lia.
From Stdlib Require Import Strings.Byte Strings.String.
From stdpp Require Import base option list.

(** ** Bytes *)

(** The Go conversion [[]byte("...")] of an ASCII literal. *)
Definition lit (s : string) : list byte := list_byte_of_string s.

(** [string(a) == string(b)] on byte slices. *)
Fixpoint bytes_eqb (a b : list byte) : bool :=
  match a, b with
  | [], [] => true
  | x :: a', y :: b' => Byte.eqb x y && bytes_eqb a' b'
  | _, _ => false
  end.

(** ** Zero values and the codec of the value type *)

(** [*new(T)], equally [var v T]. *)
Class Zero (T : Type) := zero : T.

(** [json.Marshal(v)] returns [([]byte, error)]; [json.Unmarshal(data, &v)]
    updates the target [v] and returns an [error].  [None] is Go's [nil]
    error. *)
Class JSON (T E : Type) := {
  json_Marshal : T -> list byte * option E;
  json_Unmarshal : list byte -> T -> T * option E
}.

(** ** The container *)

Record Optional (T : Type) := mkOptional {
  value : T;
  hasValue : bool
}.
Arguments mkOptional {T} _ _.
Arguments value {T} _.
Arguments hasValue {T} _.

(** The composite literal [Optional[T]{}], which is also what
    [var o Optional[T]] holds. *)
#[global] Instance Optional_Zero {T} {ZT : Zero T} : Zero (Optional T) :=
  {| value := zero; hasValue := false |}.

(** ** Memory *)

Definition loc := nat.

Inductive ptr := Nil | Ptr (l : loc).
Arguments Ptr l%_nat.

Inductive cell (T : Type) :=
| VarT (v : T)
| VarOptional (o : Optional T).
Arguments VarT {T} _.
Arguments VarOptional {T} _.

Abbreviation heap T := (list (cell T)).

(** [*p] for [p : *T]. *)
Definition load {T} (l : loc) (h : heap T) : option T :=
  match h !! l with
  | Some (VarT v) => Some v
  | _ => None
  end.

(** [*p = w] for [p : *T]. *)
Definition store {T} (l : loc) (w : T) (h : heap T) : option (heap T) :=
  match h !! l with
  | Some (VarT _) => Some (<[l := VarT w]> h)
  | _ => None
  end.

(** The container a [*Optional[T]] points to. *)
Definition container {T} (l : loc) (h : heap T) : option (Optional T) :=
  match h !! l with
  | Some (VarOptional o) => Some o
  | _ => None
  end.

(** [o.m()] for a method [m] with a pointer receiver and [o] a non-nil
    pointer: the pointee is replaced by what [m] makes of it. *)
Definition invoke {T} (l : loc) (m : Optional T -> Optional T)
    (h : heap T) : option (heap T) :=
  match h !! l with
  | Some (VarOptional o) => Some (<[l := VarOptional (m o)]> h)
  | _ => None
  end.

(** A new variable holding [c]; its address is the next free index. *)
Definition alloc {T} (c : cell T) (h : heap T) : loc * heap T :=
  (length h, h ++ [c]).

(** ** The JSON null token and the whitespace loop *)

(** [[]byte("null")]. *)
Definition null : list byte := lit "null".

(** The test in the loop of [UnmarshalJSON]: the byte is none of
    [' '], ['\n'], ['\r'], ['\t']. *)
Definition kept (b : byte) : bool :=
  negb (Byte.eqb b x20) && negb (Byte.eqb b x0a)
  && negb (Byte.eqb b x0d) && negb (Byte.eqb b x09).

(** The loop of [UnmarshalJSON] that fills [trimmed], which starts empty
    and receives every kept byte of [data] in order. *)
Definition trim (data : list byte) : list byte :=
  fold_left (fun trimmed b => if kept b then trimmed ++ [b] else trimmed)
            data [].

Section Optional.
Context {T E : Type} {ZT : Zero T} {JT : JSON T E}.

Definition New (value : T) : Optional T :=
  {| value := value; hasValue := true |}.

Definition FromPtr (value : ptr) (h : heap T) : option (Optional T) :=
  match value with
  | Nil => Some {| value := zero; hasValue := false |}
  | Ptr l =>
      match load l h with
      | Some v => Some {| value := v; hasValue := true |}
      | None => None
      end
  end.

Definition Empty : Optional T := zero.

Definition IsEmpty (o : Optional T) : bool := negb (hasValue o).

Definition Get (o : Optional T) : T * bool := (value o, hasValue o).

Definition ToPtr (o : Optional T) (h : heap T) : ptr * heap T :=
  if negb (hasValue o) then (Nil, h)
  else
    let v := value o in
    let '(l, h') := alloc (VarT v) h in
    (Ptr l, h').

Definition Or (o : Optional T) (value0 : T) : T :=
  if negb (hasValue o) then value0 else value o.

(** Go's [Set]; the name is a keyword here. *)
Definition Set_ (value0 : T) (o : Optional T) : Optional T :=
  let o1 := {| value := value o; hasValue := true |} in
  {| value := value0; hasValue := hasValue o1 |}.

Definition Unset (o : Optional T) : Optional T :=
  let o1 := {| value := value o; hasValue := false |} in
  {| value := zero; hasValue := hasValue o1 |}.

Definition MarshalJSON (o : Optional T) : list byte * option E :=
  if negb (hasValue o) then (null, None)
  else json_Marshal (value o).

(** [None] stands for a receiver that is not [nil] and yet addresses no
    container, which Go's typing rules out. *)
Definition UnmarshalJSON (o : ptr) (data : list byte) (h : heap T)
    : option (heap T * option E) :=
  match o with
  | Nil => Some (h, None)
  | Ptr l =>
      if Nat.eqb (length data) 4 && bytes_eqb data (lit "null") then
        h' ← invoke l Unset h; Some (h', None)
      else
        let trimmed := trim data in
        if bytes_eqb trimmed (lit "null") then
          h' ← invoke l Unset h; Some (h', None)
        else
          let '(v, err) := json_Unmarshal data zero in
          match err with
          | Some e => Some (h, Some e)
          | None => h' ← invoke l (Set_ v) h; Some (h', None)
          end
  end.

(** The data-model invariant: an absent container holds the zero value. *)
Definition zero_when_absent (o : Optional T) : Prop :=
  hasValue o = false -> value o = zero.

End Optional.

(** ** The absence token as the specification words it

    "The absence token with surrounding insignificant whitespace": the
    input with its leading and trailing run of whitespace removed is
    [null]. *)

Definition is_space (b : byte) : bool := negb (kept b).

Fixpoint drop_space (data : list byte) : list byte :=
  match data with
  | [] => []
  | b :: rest => if is_space b then drop_space rest else data
  end.

Definition strip_around (data : list byte) : list byte :=
  rev (drop_space (rev (drop_space data))).

Definition surrounded_null (data : list byte) : bool :=
  bytes_eqb (strip_around data) null.

(** ** Sample value types

    Two codecs in the manner of [encoding/json], on the fragment of JSON
    made of [null] and integer literals. *)

Module Int.
Local Open Scope Z_scope.

Inductive error := Malformed | Overflow.

Definition digit (b : byte) : option Z :=
  match b with
  | x30 => Some 0 | x31 => Some 1 | x32 => Some 2 | x33 => Some 3
  | x34 => Some 4 | x35 => Some 5 | x36 => Some 6 | x37 => Some 7
  | x38 => Some 8 | x39 => Some 9
  | _ => None
  end.

Fixpoint digits (s : list byte) (acc : Z) : option Z :=
  match s with
  | [] => Some acc
  | b :: rest =>
      match digit b with
      | Some d => digits rest (10 * acc + d)
      | None => None
      end
  end.

(** An optional minus sign, then [0] or a nonempty run of digits that
    does not start with [0]. *)
Definition literal (s : list byte) : option Z :=
  let '(neg, ds) :=
    match s with
    | x2d :: rest => (true, rest)
    | _ => (false, s)
    end in
  match ds with
  | [] => None
  | x30 :: _ :: _ => None
  | _ =>
      match digits ds 0 with
      | Some n => Some (if neg then - n else n)
      | None => None
      end
  end.

Definition min_int : Z := - 2 ^ 63.
Definition max_int : Z := 2 ^ 63 - 1.

(** Decoding [null] leaves the target as it is; text that is neither
    [null] nor an integer literal is reported as [Malformed]. *)
Definition unmarshal (data : list byte) (v : Z) : Z * option error :=
  let s := strip_around data in
  if bytes_eqb s null then (v, None)
  else
    match literal s with
    | None => (v, Some Malformed)
    | Some n =>
        if (min_int <=? n) && (n <=? max_int) then (n, None)
        else (v, Some Overflow)
    end.

Fixpoint uint_bytes (d : Decimal.uint) : list byte :=
  match d with
  | Decimal.Nil => []
  | Decimal.D0 d => x30 :: uint_bytes d
  | Decimal.D1 d => x31 :: uint_bytes d
  | Decimal.D2 d => x32 :: uint_bytes d
  | Decimal.D3 d => x33 :: uint_bytes d
  | Decimal.D4 d => x34 :: uint_bytes d
  | Decimal.D5 d => x35 :: uint_bytes d
  | Decimal.D6 d => x36 :: uint_bytes d
  | Decimal.D7 d => x37 :: uint_bytes d
  | Decimal.D8 d => x38 :: uint_bytes d
  | Decimal.D9 d => x39 :: uint_bytes d
  end.

Definition marshal (n : Z) : list byte * option error :=
  (match Z.to_int n with
   | Decimal.Pos d => uint_bytes d
   | Decimal.Neg d => x2d :: uint_bytes d
   end, None).

#[global] Instance int_Zero : Zero Z := 0.
#[global] Instance int_JSON : JSON Z error :=
  {| json_Marshal := marshal; json_Unmarshal := unmarshal |}.

End Int.

(** [T = *int] as [encoding/json] sees it: [None] is the nil pointer,
    [Some n] a pointer to an int holding [n]. *)
Module IntPtr.
Local Open Scope Z_scope.

Definition marshal (p : option Z) : list byte * option Int.error :=
  match p with
  | None => (lit "null", None)
  | Some n => Int.marshal n
  end.

(** [null] sets the pointer to nil; a number is decoded into the pointee. *)
Definition unmarshal (data : list byte) (p : option Z)
    : option Z * option Int.error :=
  if bytes_eqb (strip_around data) null then (None, None)
  else
    match Int.unmarshal data (default 0 p) with
    | (n, None) => (Some n, None)
    | (_, Some e) => (p, Some e)
    end.

#[global] Instance ptr_Zero : Zero (option Z) := None.
#[global] Instance ptr_JSON : JSON (option Z) Int.error :=
  {| json_Marshal := marshal; json_Unmarshal := unmarshal |}.

End IntPtr.

(** A value type with reference semantics, for the cases of the package's
    tests where [T] is [*int]: a universe holding both ints and pointers,
    so that one heap has the [int] variables and the [*int] values that
    designate them.  The zero value of [*int] is the nil pointer. *)
Module Ref.

Inductive val := VInt (n : Z) | VRef (p : ptr).

#[global] Instance val_Zero : Zero val := VRef Nil.

End Ref.

(** * Properties *)

(** ** Bytes and the whitespace loop *)

Lemma bytes_eqb_eq (a b : list byte) : bytes_eqb a b = true <-> a = b.
Proof.
  revert b; induction a as [|x a IH]; intros [|y b]; simpl; split;
    try congruence; try reflexivity.
  - intros Hxy. apply andb_true_iff in Hxy as [Hx Ha].
    apply Byte.byte_dec_bl in Hx. apply IH in Ha. congruence.
  - intros Heq. injection Heq as -> ->. apply andb_true_iff. split.
    + apply Byte.byte_dec_lb. reflexivity.
    + apply IH. reflexivity.
Qed.

Lemma bytes_eqb_neq (a b : list byte) : bytes_eqb a b = false <-> a <> b.
Proof.
  rewrite <- bytes_eqb_eq. destruct (bytes_eqb a b); split; congruence.
Qed.

Lemma trim_loop (data acc : list byte) :
  fold_left (fun trimmed b => if kept b then trimmed ++ [b] else trimmed)
            data acc
  = acc ++ List.filter kept data.
Proof.
  revert acc; induction data as [|b data IH]; intros acc; simpl.
  - now rewrite app_nil_r.
  - rewrite IH. destruct (kept b); [|reflexivity].
    now rewrite <- app_assoc.
Qed.

(** The loop keeps exactly the bytes that pass its test. *)
Lemma trim_filter (data : list byte) : trim data = List.filter kept data.
Proof. unfold trim. now rewrite trim_loop. Qed.

Lemma trim_null : trim null = null.
Proof. reflexivity. Qed.

Lemma filter_drop_space (data : list byte) :
  List.filter kept (drop_space data) = List.filter kept data.
Proof.
  induction data as [|b data IH]; simpl; [reflexivity|].
  unfold is_space. destruct (kept b) eqn:Hb; simpl.
  - now rewrite Hb.
  - exact IH.
Qed.

Lemma filter_rev_kept (data : list byte) :
  List.filter kept (rev data) = rev (List.filter kept data).
Proof.
  induction data as [|b data IH]; simpl; [reflexivity|].
  rewrite List.filter_app, IH. simpl.
  destruct (kept b); simpl; [reflexivity | now rewrite app_nil_r].
Qed.

Lemma trim_strip_around (data : list byte) :
  trim (strip_around data) = trim data.
Proof.
  rewrite !trim_filter. unfold strip_around.
  rewrite filter_rev_kept, filter_drop_space, filter_rev_kept, rev_involutive.
  apply filter_drop_space.
Qed.

(** What the specification calls the absence token is read as such by the
    loop. *)
Lemma surrounded_null_trim (data : list byte) :
  surrounded_null data = true -> bytes_eqb (trim data) null = true.
Proof.
  unfold surrounded_null. intros Hs. apply bytes_eqb_eq in Hs.
  apply bytes_eqb_eq. now rewrite <- trim_strip_around, Hs.
Qed.

(** ** Memory *)

Section Memory.
Context {T : Type}.
Implicit Types (h : heap T) (l c : loc) (o : Optional T).

Lemma container_lookup l h o :
  container l h = Some o <-> h !! l = Some (VarOptional o).
Proof.
  unfold container. destruct (h !! l) as [[v|o']|]; split; congruence.
Qed.

Lemma load_lookup l h (v : T) : load l h = Some v <-> h !! l = Some (VarT v).
Proof.
  unfold load. destruct (h !! l) as [[v'|o']|]; split; congruence.
Qed.

Lemma invoke_container l m h o :
  container l h = Some o ->
  invoke l m h = Some (<[l := VarOptional (m o)]> h).
Proof.
  intros Hc. apply container_lookup in Hc. unfold invoke. now rewrite Hc.
Qed.

Lemma invoke_inv l m h h2 :
  invoke l m h = Some h2 ->
  exists o, container l h = Some o /\ h2 = <[l := VarOptional (m o)]> h.
Proof.
  unfold invoke. destruct (h !! l) as [[v|o]|] eqn:Hl; try discriminate.
  intros [= <-]. exists o. split; [|reflexivity].
  now apply container_lookup.
Qed.

(** A pointer-receiver call shows at its receiver and nowhere else. *)
Lemma invoke_at l m h h2 o :
  container l h = Some o -> invoke l m h = Some h2 ->
  container l h2 = Some (m o).
Proof.
  intros Hc Hi. rewrite (invoke_container _ _ _ _ Hc) in Hi.
  injection Hi as <-. apply container_lookup.
  apply list_lookup_insert_eq. apply container_lookup in Hc.
  now apply lookup_lt_Some in Hc.
Qed.

Lemma invoke_frame l m h h2 l' :
  invoke l m h = Some h2 -> l' <> l -> h2 !! l' = h !! l'.
Proof.
  intros Hi Hne. apply invoke_inv in Hi as (o & _ & ->).
  apply list_lookup_insert_ne. congruence.
Qed.

Lemma store_inv l (w : T) h h2 :
  store l w h = Some h2 ->
  (exists v, load l h = Some v) /\ h2 = <[l := VarT w]> h.
Proof.
  unfold store. destruct (h !! l) as [[v|o]|] eqn:Hl; try discriminate.
  intros [= <-]. split; [|reflexivity]. exists v. now apply load_lookup.
Qed.

Lemma alloc_fresh (x : cell T) h :
  h !! fst (alloc x h) = None
  /\ snd (alloc x h) !! fst (alloc x h) = Some x
  /\ forall l, l <> fst (alloc x h) -> snd (alloc x h) !! l = h !! l.
Proof.
  unfold alloc; simpl. split; [|split].
  - apply lookup_ge_None. lia.
  - rewrite lookup_app_r by lia. now rewrite Nat.sub_diag.
  - intros l Hl. destruct (decide (l < length h)) as [Hlt|Hge].
    + now apply lookup_app_l.
    + rewrite !(proj2 (lookup_ge_None _ _)); [reflexivity|lia|].
      rewrite length_app; simpl. lia.
Qed.

End Memory.

(** ** The container and its adapter *)

Section Facts.
Context {T E : Type} {ZT : Zero T} {JT : JSON T E}.
Implicit Types (h : heap T) (l c : loc) (o : Optional T) (data : list byte).

Lemma Set_New (v : T) o : Set_ v o = New v.
Proof. reflexivity. Qed.

Lemma Unset_Empty o : Unset o = Empty.
Proof. reflexivity. Qed.

Lemma absent_is_Empty o :
  zero_when_absent o -> hasValue o = false -> o = Empty.
Proof.
  destruct o as [v b]; unfold zero_when_absent; simpl.
  intros Hz ->. now rewrite Hz.
Qed.

(** The fast path of [UnmarshalJSON] is subsumed by the test on
    [trimmed]. *)
Lemma fast_path_trim data :
  Nat.eqb (length data) 4 && bytes_eqb data (lit "null") = true ->
  bytes_eqb (trim data) (lit "null") = true.
Proof.
  intros Hf. apply andb_true_iff in Hf as [_ Hd].
  apply bytes_eqb_eq in Hd. now subst data.
Qed.

(** [UnmarshalJSON] on a receiver that is not nil, with its two null
    tests merged. *)
Lemma UnmarshalJSON_Ptr l data h :
  UnmarshalJSON (Ptr l) data h =
    if bytes_eqb (trim data) null then
      h' ← invoke l Unset h; Some (h', None)
    else
      match json_Unmarshal data zero with
      | (_, Some e) => Some (h, Some e)
      | (v, None) => h' ← invoke l (Set_ v) h; Some (h', None)
      end.
Proof.
  unfold UnmarshalJSON.
  destruct (Nat.eqb (length data) 4 && bytes_eqb data (lit "null")) eqn:Hf.
  - apply fast_path_trim in Hf. unfold null. now rewrite Hf.
  - unfold null. destruct (bytes_eqb (trim data) (lit "null")); [reflexivity|].
    destruct (json_Unmarshal data zero) as [v [e|]]; reflexivity.
Qed.

(** The three ways a call on a valid receiver ends. *)
Lemma UnmarshalJSON_cases l data h o :
  container l h = Some o ->
  (bytes_eqb (trim data) null = true
   /\ UnmarshalJSON (Ptr l) data h
      = Some (<[l := VarOptional (Unset o)]> h, None))
  \/ (bytes_eqb (trim data) null = false
      /\ exists v e, json_Unmarshal data zero = (v, Some e)
         /\ UnmarshalJSON (Ptr l) data h = Some (h, Some e))
  \/ (bytes_eqb (trim data) null = false
      /\ exists v, json_Unmarshal data zero = (v, None)
         /\ UnmarshalJSON (Ptr l) data h
            = Some (<[l := VarOptional (Set_ v o)]> h, None)).
Proof.
  intros Hc. rewrite UnmarshalJSON_Ptr.
  destruct (bytes_eqb (trim data) null) eqn:Hn.
  - left. split; [reflexivity|].
    now rewrite (invoke_container _ _ _ _ Hc).
  - right. destruct (json_Unmarshal data zero) as [v [e|]] eqn:Hu.
    + left. split; [reflexivity|]. now exists v, e.
    + right. split; [reflexivity|]. exists v. split; [reflexivity|].
      now rewrite (invoke_container _ _ _ _ Hc).
Qed.

(** [FromPtr] and [UnmarshalJSON] return on every pointer Go can form. *)
Lemma FromPtr_Nil h : FromPtr Nil h = Some Empty.
Proof. reflexivity. Qed.

Lemma FromPtr_Ptr l h (v : T) :
  load l h = Some v -> FromPtr (Ptr l) h = Some (New v).
Proof. intros Hl. simpl. now rewrite Hl. Qed.

Lemma UnmarshalJSON_returns l data h o :
  container l h = Some o ->
  exists h' (r : option E), UnmarshalJSON (Ptr l) data h = Some (h', r).
Proof.
  intros Hc.
  destruct (UnmarshalJSON_cases l data h o Hc)
    as [[_ Hr]|[[_ (v & e & _ & Hr)]|[_ (v & _ & Hr)]]];
    rewrite Hr; eauto.
Qed.

(** On a valid receiver the call reports an error exactly when no byte
    sequence [null] is left by the loop and the decoder of [T] reports
    that error. *)
Lemma UnmarshalJSON_error_iff l data h o (e : E) :
  container l h = Some o ->
  (exists h', UnmarshalJSON (Ptr l) data h = Some (h', Some e))
  <-> bytes_eqb (trim data) null = false
      /\ snd (json_Unmarshal data zero) = Some e.
Proof.
  intros Hc.
  destruct (UnmarshalJSON_cases l data h o Hc)
    as [[Hn ->]|[[Hn (v & e' & Hu & ->)]|[Hn (v & Hu & ->)]]];
    rewrite Hn; try rewrite Hu; simpl; split.
  - intros [h' [=]].
  - intros [[=] _].
  - intros [h' [= _ ->]]. now split.
  - intros [_ [= ->]]. now exists h.
  - intros [h' [=]].
  - intros [_ [=]].
Qed.

(** Every input the specification calls the absence token unsets the
    container. *)
Lemma UnmarshalJSON_surrounded_null l data h o :
  container l h = Some o ->
  surrounded_null data = true ->
  UnmarshalJSON (Ptr l) data h = Some (<[l := VarOptional Empty]> h, None).
Proof.
  intros Hc Hs. apply surrounded_null_trim in Hs.
  destruct (UnmarshalJSON_cases l data h o Hc)
    as [[_ Hr]|[[Hn _]|[Hn _]]]; [exact Hr | congruence | congruence].
Qed.

End Facts.

(** When the loop leaves [null] the decoder of [T] has no part in the
    result: any two codecs give the same outcome. *)
Lemma UnmarshalJSON_null_any_decoder {T E : Type} {ZT : Zero T}
    (J1 J2 : JSON T E) (p : ptr) (data : list byte) (h : heap T) :
  bytes_eqb (trim data) null = true ->
  UnmarshalJSON (JT := J1) p data h = UnmarshalJSON (JT := J2) p data h.
Proof.
  intros Hn. destruct p as [|l]; [reflexivity|].
  rewrite !UnmarshalJSON_Ptr, Hn. reflexivity.
Qed.

(** ** The tests of the package, replayed *)

Example TestZeroValueIsEmpty :
  let o : Optional Z := zero in
  IsEmpty o = true /\ Get o = (0%Z, false)
  /\ fst (ToPtr o []) = Nil /\ Or o 42%Z = 42%Z.
Proof. repeat split. Qed.

Example TestNewHasValue :
  let o := New 10%Z in
  IsEmpty o = false /\ Get o = (10%Z, true) /\ Or o 42%Z = 10%Z.
Proof. repeat split. Qed.

Example TestFromPtrNil :
  exists o : Optional Z,
    FromPtr Nil [] = Some o /\ IsEmpty o = true /\ Get o = (0%Z, false)
    /\ fst (ToPtr o []) = Nil /\ Or o 7%Z = 7%Z.
Proof. eexists. repeat split. Qed.

Example TestFromPtrNonNil :
  let h := [VarT 5%Z] in
  exists o p h',
    FromPtr (Ptr 0) h = Some o /\ IsEmpty o = false /\ Get o = (5%Z, true)
    /\ ToPtr o h = (Ptr p, h') /\ load p h' = Some 5%Z.
Proof. eexists _, _, _. repeat split. Qed.

Example TestEmptyFunction :
  IsEmpty (Empty : Optional Z) = true /\ Get (Empty : Optional Z) = (0%Z, false).
Proof. repeat split. Qed.

Example TestSetAndUnset :
  let o : Optional Z := zero in
  let o1 := Set_ 99%Z o in
  let o2 := Unset o1 in
  IsEmpty o1 = false /\ Get o1 = (99%Z, true)
  /\ IsEmpty o2 = true /\ Get o2 = (0%Z, false).
Proof. repeat split. Qed.

Example TestToPtrReturnsCopy :
  let h := [VarOptional (New 1%Z)] in
  exists p h1 h2,
    ToPtr (New 1%Z) h = (Ptr p, h1) /\ load p h1 = Some 1%Z
    /\ store p 2%Z h1 = Some h2
    /\ (Get <$> container 0 h2) = Some (1%Z, true).
Proof. eexists _, _, _. repeat split. Qed.

(** The interchange examples of the specification: [null], [ null ] and
    [null] between a newline and a tab unset the container; [42] is
    decoded and encoded back as [42]. *)
Example null_inputs_unset :
  let h := [VarOptional (New 7%Z)] in
  let h0 : heap Z * option Int.error := ([VarOptional Empty], None) in
  UnmarshalJSON (Ptr 0) (lit "null") h = Some h0
  /\ UnmarshalJSON (Ptr 0) (lit " null ") h = Some h0
  /\ UnmarshalJSON (Ptr 0) (x0a :: lit "null" ++ [x09]) h = Some h0.
Proof. repeat split. Qed.

Example decode_42 :
  UnmarshalJSON (E := Int.error) (Ptr 0) (lit "42") [VarOptional Empty]
  = Some ([VarOptional (New 42%Z)], None)
  /\ MarshalJSON (E := Int.error) (New 42%Z) = (lit "42", None).
Proof. repeat split. Qed.

(** * The statements of the specification *)

Section Claims.
Context {T E : Type} {ZT : Zero T} {JT : JSON T E}.
Implicit Types (h : heap T) (l c : loc) (o : Optional T) (data : list byte).

(** C2. Whenever [UnmarshalJSON] succeeds on a container, [MarshalJSON]
    of the container it leaves gives: the four bytes [null] if the input
    was the absence token (with surrounding whitespace, and more
    generally whenever the whitespace loop leaves [null]); otherwise the
    input was decoded by the decoder of [T] into some [v], the container
    is present with [v], and the output is [json.Marshal(v)]. *)
Theorem MarshalJSON_after_UnmarshalJSON l data h h' o :
  container l h = Some o ->
  UnmarshalJSON (Ptr l) data h = Some (h', None) ->
  exists o',
    container l h' = Some o'
    /\ (surrounded_null data = true -> MarshalJSON o' = (null, None))
    /\ (bytes_eqb (trim data) null = true ->
        o' = Empty /\ MarshalJSON o' = (null, None))
    /\ (bytes_eqb (trim data) null = false ->
        exists v, json_Unmarshal data zero = (v, None)
                  /\ o' = New v
                  /\ MarshalJSON o' = json_Marshal v).
Proof.
  intros Hc Hu.
  assert (Hlt : l < length h).
  { apply container_lookup in Hc. now apply lookup_lt_Some in Hc. }
  destruct (UnmarshalJSON_cases l data h o Hc)
    as [[Hn Hr]|[[Hn (v & e & Hd & Hr)]|[Hn (v & Hd & Hr)]]];
    rewrite Hr in Hu; try discriminate; injection Hu as <-.
  - exists (Unset o). split; [|split; [|split]].
    + apply container_lookup. now apply list_lookup_insert_eq.
    + reflexivity.
    + intros _. split; reflexivity.
    + congruence.
  - exists (Set_ v o). split; [|split; [|split]].
    + apply container_lookup. now apply list_lookup_insert_eq.
    + intros Hs. apply surrounded_null_trim in Hs. congruence.
    + congruence.
    + intros _. exists v. split; [exact Hd | split; reflexivity].
Qed.

(** C3. An absent container holds the zero value of [T]: this holds of
    [New v], [Empty], the zero value of the container type and every
    result of [FromPtr]; [Set] and [Unset] establish it; and a call of
    [UnmarshalJSON], on any receiver, keeps it for every container of
    the heap. *)
Theorem absent_slot_is_zero :
  (forall v : T, zero_when_absent (New v))
  /\ zero_when_absent Empty
  /\ zero_when_absent (zero : Optional T)
  /\ (forall p h o, FromPtr p h = Some o -> zero_when_absent o)
  /\ (forall v o, zero_when_absent o -> zero_when_absent (Set_ v o))
  /\ (forall o, zero_when_absent o -> zero_when_absent (Unset o))
  /\ (forall p data h h' (r : option E) c o,
        container c h = Some o -> zero_when_absent o ->
        UnmarshalJSON p data h = Some (h', r) ->
        exists o', container c h' = Some o' /\ zero_when_absent o').
Proof.
  unfold zero_when_absent. repeat split; simpl; try congruence.
  - intros p h o Hf. destruct p as [|l]; simpl in Hf.
    + injection Hf as <-. reflexivity.
    + destruct (load l h); [|discriminate]. injection Hf as <-.
      simpl. discriminate.
  - intros p data h h' r c o Hc Hz Hu.
    destruct p as [|l].
    { simpl in Hu. injection Hu as <- <-. now exists o. }
    rewrite UnmarshalJSON_Ptr in Hu.
    assert (Hstep : forall m h2,
               (forall x, hasValue (m x) = false -> value (m x) = zero) ->
               invoke l m h = Some h2 ->
               exists o', container c h2 = Some o'
                          /\ (hasValue o' = false -> value o' = zero)).
    { intros m h2 Hm Hi. destruct (decide (c = l)) as [->|Hne].
      - exists (m o). split; [exact (invoke_at _ _ _ _ _ Hc Hi) | apply Hm].
      - exists o. split; [|exact Hz]. apply container_lookup.
        rewrite (invoke_frame _ _ _ _ _ Hi Hne).
        now apply container_lookup. }
    destruct (bytes_eqb (trim data) null).
    + destruct (invoke l Unset h) as [h2|] eqn:Hi; [|discriminate].
      simpl in Hu. injection Hu as <- <-.
      now apply (Hstep Unset h2).
    + destruct (json_Unmarshal data zero) as [v [e|]].
      * injection Hu as <- <-. now exists o.
      * destruct (invoke l (Set_ v) h) as [h2|] eqn:Hi; [|discriminate].
        simpl in Hu. injection Hu as <- <-.
        apply (Hstep (Set_ v) h2); [simpl; discriminate|assumption].
Qed.

(** C5. [UnmarshalJSON] on a nil receiver returns a nil error and leaves
    the whole heap as it was, whatever the input. *)
Theorem UnmarshalJSON_nil_receiver data h :
  UnmarshalJSON Nil data h = Some (h, None).
Proof. reflexivity. Qed.

(** C6. [MarshalJSON] of an absent container is the four bytes
    [n], [u], [l], [l] with a nil error; of a present one it is the
    result of [json.Marshal] on the held value, bytes and error alike. *)
Theorem MarshalJSON_absent_present o :
  null = [x6e; x75; x6c; x6c]
  /\ length null = 4%nat
  /\ (hasValue o = false -> MarshalJSON o = (null, None))
  /\ (hasValue o = true -> MarshalJSON o = json_Marshal (value o)).
Proof.
  repeat split; unfold MarshalJSON; intros ->; reflexivity.
Qed.

(** C8. When [UnmarshalJSON] returns an error the heap is untouched, so
    the receiver keeps its flag and its slot. *)
Theorem UnmarshalJSON_error_keeps_target p data h h' (e : E) :
  UnmarshalJSON p data h = Some (h', Some e) ->
  h' = h
  /\ forall l o, container l h = Some o ->
       container l h' = Some o
       /\ (forall o', container l h' = Some o' ->
             hasValue o' = hasValue o /\ value o' = value o).
Proof.
  intros Hu.
  assert (Hh : h' = h).
  { destruct p as [|l]; [simpl in Hu; congruence|].
    rewrite UnmarshalJSON_Ptr in Hu.
    destruct (bytes_eqb (trim data) null).
    - destruct (invoke l Unset h); simpl in Hu; discriminate.
    - destruct (json_Unmarshal data zero) as [v [e'|]].
      + congruence.
      + destruct (invoke l (Set_ v) h); simpl in Hu; discriminate. }
  subst h'. split; [reflexivity|]. intros l o Hc. split; [exact Hc|].
  intros o' Hc'. rewrite Hc in Hc'. injection Hc' as <-. now split.
Qed.

(** C7. [ToPtr] returns the nil pointer exactly when the container is
    absent.  On a present container it returns the address of a cell
    that did not exist before the call and holds the value of the
    container, every older cell being as it was.  Writing through the
    returned pointer leaves the container unchanged, and a
    pointer-receiver call on the container leaves the pointee
    unchanged. *)
Theorem ToPtr_fresh_copy o h :
  (fst (ToPtr o h) = Nil <-> hasValue o = false)
  /\ (hasValue o = false -> ToPtr o h = (Nil, h))
  /\ (hasValue o = true ->
      exists l,
        ToPtr o h = (Ptr l, h ++ [VarT (value o)])
        /\ h !! l = None
        /\ load l (snd (ToPtr o h)) = Some (value o)
        /\ (forall l', l' <> l -> snd (ToPtr o h) !! l' = h !! l')
        /\ forall c, container c h = Some o ->
             container c (snd (ToPtr o h)) = Some o
             /\ (forall w h2, store l w (snd (ToPtr o h)) = Some h2 ->
                   load l h2 = Some w /\ container c h2 = Some o)
             /\ (forall m h2, invoke c m (snd (ToPtr o h)) = Some h2 ->
                   container c h2 = Some (m o)
                   /\ load l h2 = Some (value o))).
Proof.
  unfold ToPtr. destruct (hasValue o) eqn:Hv; simpl.
  - split; [split; discriminate|]. split; [discriminate|]. intros _.
    destruct (alloc_fresh (VarT (value o)) h) as (Hnew & Hat & Hold).
    simpl in Hnew, Hat, Hold.
    exists (length h). split; [reflexivity|]. split; [exact Hnew|].
    split; [now apply load_lookup|]. split; [exact Hold|].
    intros c Hc.
    assert (Hne : c <> length h).
    { apply container_lookup, lookup_lt_Some in Hc. lia. }
    assert (Hc1 : container c (h ++ [VarT (value o)]) = Some o).
    { apply container_lookup. rewrite (Hold c Hne).
      now apply container_lookup. }
    assert (Hlen : length h < length (h ++ [VarT (value o)])).
    { rewrite length_app; simpl; lia. }
    split; [exact Hc1|]. split.
    + intros w h2 Hs. apply store_inv in Hs as [_ ->]. split.
      * apply load_lookup. now apply list_lookup_insert_eq.
      * apply container_lookup. rewrite list_lookup_insert_ne by congruence.
        now apply container_lookup.
    + intros m h2 Hi. split; [exact (invoke_at _ _ _ _ _ Hc1 Hi)|].
      apply load_lookup.
      rewrite (invoke_frame _ _ _ _ (length h) Hi) by congruence.
      exact Hat.
  - split; [split; reflexivity|]. split; [reflexivity|discriminate].
Qed.

(** C9. A present container whose value [json.Marshal] encodes as
    [null] is serialized to the very bytes of an absent one, and
    deserializing those bytes into any container leaves it absent. *)
Theorem present_value_encoded_as_null (v : T) l h o :
  json_Marshal v = (null, None) ->
  container l h = Some o ->
  IsEmpty (New v) = false
  /\ MarshalJSON (New v) = (null, None)
  /\ MarshalJSON (New v) = MarshalJSON (Empty : Optional T)
  /\ exists h',
       UnmarshalJSON (Ptr l) (fst (MarshalJSON (New v))) h = Some (h', None)
       /\ container l h' = Some Empty
       /\ IsEmpty (Empty : Optional T) = true.
Proof.
  intros Hm Hc.
  assert (HM : MarshalJSON (New v) = (null, None)) by exact Hm.
  split; [reflexivity|]. split; [exact HM|]. split; [exact HM|].
  rewrite HM. simpl.
  destruct (UnmarshalJSON_cases l null h o Hc)
    as [[_ Hr]|[[Hn _]|[Hn _]]]; try (rewrite trim_null in Hn; discriminate).
  eexists. split; [exact Hr|]. split; [|reflexivity].
  apply container_lookup. apply list_lookup_insert_eq.
  apply container_lookup in Hc. now apply lookup_lt_Some in Hc.
Qed.

(** C10. After [Unset] the container is absent and holds the zero
    value; a second [Unset] changes nothing.  On a container that is
    already absent, [IsEmpty], [Or], [ToPtr] and [MarshalJSON] answer
    after [Unset] as before; and if the container satisfies the
    invariant of the data model, [Unset] returns it unchanged, so [Get]
    answers as before and the heap cell of the container is left as it
    was. *)
Theorem Unset_idempotent o :
  (hasValue (Unset o) = false /\ value (Unset o) = zero)
  /\ Unset (Unset o) = Unset o
  /\ (hasValue o = false ->
      IsEmpty (Unset o) = IsEmpty o
      /\ (forall d, Or (Unset o) d = Or o d)
      /\ (forall h, ToPtr (Unset o) h = ToPtr o h)
      /\ MarshalJSON (Unset o) = MarshalJSON o
      /\ (zero_when_absent o ->
          Unset o = o
          /\ Get (Unset o) = Get o
          /\ forall c h, container c h = Some o ->
               invoke c Unset h = Some h)).
Proof.
  split; [split; reflexivity|]. split; [reflexivity|].
  intros Ha. unfold IsEmpty, Or, ToPtr, MarshalJSON. simpl. rewrite Ha.
  repeat (split; [reflexivity|]). intros Hz.
  assert (Hu : Unset o = o).
  { rewrite Unset_Empty. symmetry. now apply absent_is_Empty. }
  split; [exact Hu|]. split; [now rewrite Hu|].
  intros c h Hc. rewrite (invoke_container _ _ _ _ Hc), Hu.
  f_equal. apply list_insert_id. now apply container_lookup.
Qed.

End Claims.

(** ** Statements settled at sample inputs *)

(** C1. The input [n u l l], with whitespace between the letters, is not
    the absence token with whitespace around it, and the decoder of
    [int] rejects it; [UnmarshalJSON] nevertheless unsets the container
    and returns a nil error, without consulting the decoder. *)
Theorem interior_whitespace_read_as_null :
  let data := lit "n u l l" in
  surrounded_null data = false
  /\ json_Unmarshal data (zero : Z) = (0%Z, Some Int.Malformed)
  /\ UnmarshalJSON (E := Int.error) (Ptr 0) data [VarOptional (New 7%Z)]
     = Some ([VarOptional Empty], None).
Proof. repeat split. Qed.

(** C4. On the input [n u l l], which is neither the absence token with
    surrounding whitespace nor text the decoder of [int] accepts,
    [UnmarshalJSON] returns a nil error whatever the container holds. *)
Theorem interior_whitespace_returns_no_error :
  let data := lit "n u l l" in
  surrounded_null data = false
  /\ snd (json_Unmarshal data (zero : Z)) = Some Int.Malformed
  /\ forall o : Optional Z,
       UnmarshalJSON (E := Int.error) (Ptr 0) data [VarOptional o]
       = Some ([VarOptional (Unset o)], None).
Proof. repeat split. Qed.

Lemma MarshalJSON_after_UnmarshalJSON_witness :
  exists o' : Optional Z,
    container 0 [VarOptional (New 42%Z)] = Some o'
    /\ MarshalJSON (E := Int.error) o' = (lit "42", None).
Proof.
  assert (Hu : UnmarshalJSON (E := Int.error) (Ptr 0) (lit "42")
                 [VarOptional Empty] = Some ([VarOptional (New 42%Z)], None))
    by reflexivity.
  destruct (MarshalJSON_after_UnmarshalJSON
              0 (lit "42") [VarOptional (Empty : Optional Z)] _ Empty
              eq_refl Hu)
    as (o' & Hc & _ & _ & Hv).
  exists o'. split; [exact Hc|].
  destruct (Hv eq_refl) as (v & Hd & _ & ->).
  injection Hd as <-. reflexivity.
Defined.

Lemma absent_slot_is_zero_witness :
  UnmarshalJSON (E := Int.error) (Ptr 0) (lit " null ")
    [VarOptional (New 99%Z)] = Some ([VarOptional Empty], None)
  /\ exists o' : Optional Z,
       container 0 [VarOptional (Empty : Optional Z)] = Some o'
       /\ zero_when_absent o'.
Proof.
  split; [reflexivity|].
  destruct (absent_slot_is_zero (T := Z) (E := Int.error))
    as (HN & _ & _ & _ & _ & _ & HU).
  apply (HU (Ptr 0) (lit " null ") [VarOptional (New 99%Z)]
            [VarOptional Empty] None 0%nat (New 99%Z)).
  - reflexivity.
  - exact (HN 99%Z).
  - reflexivity.
Defined.

Lemma MarshalJSON_absent_present_witness :
  MarshalJSON (E := Int.error) (Empty : Optional Z) = (lit "null", None)
  /\ MarshalJSON (E := Int.error) (New 42%Z) = (lit "42", None).
Proof.
  destruct (MarshalJSON_absent_present (E := Int.error) (Empty : Optional Z))
    as (_ & _ & Ha & _).
  destruct (MarshalJSON_absent_present (E := Int.error) (New 42%Z))
    as (_ & _ & _ & Hp).
  split; [exact (Ha eq_refl) | exact (Hp eq_refl)].
Defined.

(** [o := New(1); p := o.ToPtr(); *p = 2] leaves [o.Get()] at [(1, true)]. *)
Lemma ToPtr_fresh_copy_witness :
  exists l h2,
    fst (ToPtr (New 1%Z) [VarOptional (New 1%Z)]) = Ptr l
    /\ store l 2%Z (snd (ToPtr (New 1%Z) [VarOptional (New 1%Z)])) = Some h2
    /\ load l h2 = Some 2%Z
    /\ container 0 h2 = Some (New 1%Z).
Proof.
  destruct (ToPtr_fresh_copy (New 1%Z) [VarOptional (New 1%Z)])
    as (_ & _ & Hp).
  destruct (Hp eq_refl) as (l & Heq & _ & _ & _ & Hind).
  destruct (Hind 0%nat eq_refl) as (_ & Hst & _).
  injection Heq as <-.
  exists 1%nat, [VarOptional (New 1%Z); VarT 2%Z].
  split; [reflexivity|]. split; [reflexivity|].
  exact (Hst 2%Z _ eq_refl).
Defined.

Lemma UnmarshalJSON_error_keeps_target_witness :
  UnmarshalJSON (Ptr 0) (lit "not-a-number") [VarOptional (New 7%Z)]
    = Some ([VarOptional (New 7%Z)], Some Int.Malformed)
  /\ container 0 [VarOptional (New 7%Z)] = Some (New 7%Z).
Proof.
  assert (Hu : UnmarshalJSON (Ptr 0) (lit "not-a-number")
                 [VarOptional (New 7%Z)]
               = Some ([VarOptional (New 7%Z)], Some Int.Malformed))
    by reflexivity.
  split; [exact Hu|].
  destruct (UnmarshalJSON_error_keeps_target _ _ _ _ _ Hu) as [_ Hk].
  exact (proj1 (Hk 0%nat (New 7%Z) eq_refl)).
Defined.

(** A present [Optional[*int]] holding the nil pointer. *)
Lemma present_value_encoded_as_null_witness :
  json_Marshal (None : option Z) = (null, None : option Int.error)
  /\ IsEmpty (New (None : option Z)) = false
  /\ MarshalJSON (E := Int.error) (New (None : option Z)) = (null, None)
  /\ exists h',
       UnmarshalJSON (E := Int.error) (Ptr 0)
         (fst (MarshalJSON (E := Int.error) (New (None : option Z))))
         [VarOptional (New (None : option Z))] = Some (h', None)
       /\ container 0 h' = Some Empty.
Proof.
  assert (Hn : json_Marshal (None : option Z)
               = (null, None : option Int.error)) by reflexivity.
  split; [exact Hn|].
  destruct (present_value_encoded_as_null
              None 0 [VarOptional (New (None : option Z))] (New None)
              Hn eq_refl)
    as (Hp & Hm & _ & h' & Hu & Hc & _).
  split; [exact Hp|]. split; [exact Hm|].
  exists h'. split; [exact Hu | exact Hc].
Defined.

Lemma Unset_idempotent_witness :
  hasValue (Empty : Optional Z) = false
  /\ zero_when_absent (Empty : Optional Z)
  /\ Unset (Empty : Optional Z) = Empty
  /\ Get (Unset (Empty : Optional Z)) = (0%Z, false).
Proof.
  split; [reflexivity|]. split; [intros _; reflexivity|].
  destruct (Unset_idempotent (E := Int.error) (Empty : Optional Z))
    as (_ & _ & Hq).
  destruct (Hq eq_refl) as (_ & _ & _ & _ & Hz).
  destruct (Hz (fun _ => eq_refl)) as (Hu & Hg & _).
  split; [exact Hu|]. rewrite Hg. reflexivity.
Defined.

(** * Further properties of the package *)

(** ** The whitespace loop *)

Lemma filter_nil_spaces (data : list byte) :
  List.filter kept data = [] <-> forallb is_space data = true.
Proof.
  induction data as [|b data IH]; simpl; [tauto|].
  unfold is_space at 1. destruct (kept b); simpl; [|exact IH].
  split; discriminate.
Qed.

Lemma filter_cons_split (data : list byte) (x : byte) (rest : list byte) :
  List.filter kept data = x :: rest ->
  exists w data',
    data = w ++ x :: data'
    /\ forallb is_space w = true
    /\ List.filter kept data' = rest.
Proof.
  induction data as [|b data IH]; simpl; [discriminate|].
  destruct (kept b) eqn:Hb.
  - intros [= -> <-]. now exists [], data.
  - intros Hf. destruct (IH Hf) as (w & data' & -> & Hw & Hr).
    exists (b :: w), data'. split; [reflexivity|]. split; [|exact Hr].
    simpl. unfold is_space at 1. now rewrite Hb.
Qed.

Lemma filter_spaces_app (w rest : list byte) :
  forallb is_space w = true ->
  List.filter kept (w ++ rest) = List.filter kept rest.
Proof.
  intros Hw. rewrite List.filter_app.
  now rewrite (proj2 (filter_nil_spaces w) Hw).
Qed.

(** The bytes the loop drops are the four whitespace bytes of JSON and no
    others. *)
Lemma kept_false_iff (b : byte) :
  kept b = false <-> b = x20 \/ b = x0a \/ b = x0d \/ b = x09.
Proof.
  split.
  - destruct b; simpl; intros Hk; try discriminate Hk; tauto.
  - intros [->|[->|[->| ->]]]; reflexivity.
Qed.

Section Further.
Context {T E : Type} {ZT : Zero T} {JT : JSON T E}.
Implicit Types (h : heap T) (l c : loc) (o : Optional T) (data : list byte).

(** X1. [FromPtr] undoes [ToPtr]: for a container that satisfies the
    invariant of the data model, building a container from the pointer
    [ToPtr] returns, in the heap [ToPtr] leaves, gives the container
    back. *)
Theorem FromPtr_after_ToPtr o h :
  zero_when_absent o ->
  FromPtr (fst (ToPtr o h)) (snd (ToPtr o h)) = Some o.
Proof.
  destruct o as [v [|]]; unfold zero_when_absent, ToPtr; simpl; intros Hz.
  - unfold load. rewrite lookup_app_r by lia.
    now rewrite Nat.sub_diag.
  - now rewrite Hz.
Qed.

(** X2. [ToPtr] after [FromPtr] never hands the original pointer back:
    from nil it gives nil and leaves the heap alone; from a pointer to a
    value it gives a different, newly allocated pointer whose pointee
    equals the original pointee, which is itself left as it was. *)
Theorem ToPtr_after_FromPtr p h o :
  FromPtr p h = Some o ->
  match p with
  | Nil => ToPtr o h = (Nil, h)
  | Ptr l =>
      exists l' v,
        fst (ToPtr o h) = Ptr l'
        /\ l' <> l
        /\ h !! l' = None
        /\ load l h = Some v
        /\ load l' (snd (ToPtr o h)) = Some v
        /\ load l (snd (ToPtr o h)) = Some v
  end.
Proof.
  destruct p as [|l]; simpl.
  - intros [= <-]. reflexivity.
  - destruct (load l h) as [v|] eqn:Hl; [|discriminate].
    intros [= <-]. unfold ToPtr; simpl.
    destruct (alloc_fresh (VarT v) h) as (Hnew & Hat & Hold).
    simpl in Hnew, Hat, Hold.
    assert (Hne : l <> length h).
    { apply load_lookup, lookup_lt_Some in Hl. lia. }
    exists (length h), v. split; [reflexivity|]. split; [congruence|].
    split; [exact Hnew|]. split; [reflexivity|].
    split; apply load_lookup; [exact Hat|].
    rewrite (Hold l Hne). now apply load_lookup.
Qed.

(** X3. Two calls of [ToPtr] on a present container return two different
    pointers, each to its own copy of the value: a store through the
    first leaves the pointee of the second unchanged. *)
Theorem ToPtr_twice_independent o h :
  hasValue o = true ->
  exists l1 l2,
    fst (ToPtr o h) = Ptr l1
    /\ fst (ToPtr o (snd (ToPtr o h))) = Ptr l2
    /\ l1 <> l2
    /\ (let h2 := snd (ToPtr o (snd (ToPtr o h))) in
        load l1 h2 = Some (value o)
        /\ load l2 h2 = Some (value o)
        /\ forall w h3, store l1 w h2 = Some h3 ->
             load l1 h3 = Some w /\ load l2 h3 = Some (value o)).
Proof.
  intros Hv. unfold ToPtr. rewrite Hv. simpl.
  exists (length h), (length (h ++ [VarT (value o)])).
  assert (Hlen : length (h ++ [VarT (value o)]) = S (length h)).
  { rewrite length_app; simpl; lia. }
  split; [reflexivity|]. split; [reflexivity|]. split; [lia|].
  assert (H1 : ((h ++ [VarT (value o)]) ++ [VarT (value o)]) !! length h
               = Some (VarT (value o))).
  { rewrite lookup_app_l by lia. rewrite lookup_app_r by lia.
    now rewrite Nat.sub_diag. }
  assert (H2 : ((h ++ [VarT (value o)]) ++ [VarT (value o)])
                 !! length (h ++ [VarT (value o)])
               = Some (VarT (value o))).
  { rewrite lookup_app_r by lia. now rewrite Nat.sub_diag. }
  split; [now apply load_lookup|]. split; [now apply load_lookup|].
  intros w h3 Hs. apply store_inv in Hs as [_ ->]. split.
  - apply load_lookup. apply list_lookup_insert_eq.
    rewrite !length_app; simpl; lia.
  - apply load_lookup. rewrite list_lookup_insert_ne by lia. exact H2.
Qed.

(** X4. The fast path of [UnmarshalJSON] changes no result.  Its length
    test is implied by its comparison, every input it accepts is also
    accepted by the test on [trimmed], and both branches do the same; so
    the function equals the one with the first [if] removed. *)
Theorem UnmarshalJSON_fast_path_redundant l data h :
  Nat.eqb (length data) 4 && bytes_eqb data (lit "null")
    = bytes_eqb data (lit "null")
  /\ (bytes_eqb data (lit "null") = true ->
      bytes_eqb (trim data) (lit "null") = true)
  /\ UnmarshalJSON (Ptr l) data h =
       (let trimmed := trim data in
        if bytes_eqb trimmed (lit "null") then
          h' ← invoke l Unset h; Some (h', None)
        else
          let '(v, err) := json_Unmarshal data zero in
          match err with
          | Some e => Some (h, Some e)
          | None => h' ← invoke l (Set_ v) h; Some (h', None)
          end).
Proof.
  assert (Hlen : bytes_eqb data (lit "null") = true ->
                 Nat.eqb (length data) 4 = true).
  { intros Hd. apply bytes_eqb_eq in Hd. now subst data. }
  split; [|split].
  - destruct (bytes_eqb data (lit "null")) eqn:Hd.
    + now rewrite Hlen.
    + apply andb_false_r.
  - intros Hd. apply bytes_eqb_eq in Hd. now subst data.
  - unfold UnmarshalJSON.
    destruct (Nat.eqb (length data) 4 && bytes_eqb data (lit "null")) eqn:Hf;
      [|reflexivity].
    apply fast_path_trim in Hf. simpl. now rewrite Hf.
Qed.




(** X8. Decoding what [MarshalJSON] produced restores the container,
    whatever the receiver held before: always for an absent container
    that satisfies the invariant; for a present one provided the
    encoding of its value is not read as [null] by the whitespace loop
    and the decoder of [T] maps it back to that value. *)
Theorem UnmarshalJSON_after_MarshalJSON l h o0 o enc :
  container l h = Some o0 ->
  zero_when_absent o ->
  MarshalJSON o = (enc, None) ->
  (hasValue o = true ->
   bytes_eqb (trim enc) null = false
   /\ json_Unmarshal enc zero = (value o, None)) ->
  exists h',
    UnmarshalJSON (Ptr l) enc h = Some (h', None)
    /\ container l h' = Some o.
Proof.
  intros Hc Hz Hm Hrt.
  assert (Hlt : l < length h).
  { apply container_lookup, lookup_lt_Some in Hc. exact Hc. }
  destruct (hasValue o) eqn:Hv.
  - destruct (Hrt eq_refl) as [Hn Hd].
    destruct (UnmarshalJSON_cases l enc h o0 Hc)
      as [[Hn' _]|[[_ (v & e & Hd' & _)]|[_ (v & Hd' & Hr)]]];
      try congruence.
    rewrite Hr. eexists. split; [reflexivity|].
    apply container_lookup. rewrite list_lookup_insert_eq by exact Hlt.
    assert (v = value o) as -> by congruence.
    destruct o as [vo b]; simpl in *. now subst b.
  - unfold MarshalJSON in Hm. rewrite Hv in Hm. simpl in Hm.
    injection Hm as <-.
    destruct (UnmarshalJSON_cases l null h o0 Hc)
      as [[_ Hr]|[[Hn _]|[Hn _]]];
      try (rewrite trim_null in Hn; discriminate).
    rewrite Hr. eexists. split; [reflexivity|].
    apply container_lookup. rewrite list_lookup_insert_eq by exact Hlt.
    rewrite Unset_Empty. now rewrite (absent_is_Empty o Hz Hv).
Qed.

(** X9. The slot of an absent container is visible through [Get] only:
    two absent containers, whatever their slots hold, get the same
    answers from [IsEmpty], [Or], [ToPtr] and [MarshalJSON], while [Get]
    returns the slot as it is. *)
Theorem absent_slot_only_seen_by_Get o1 o2 :
  hasValue o1 = false -> hasValue o2 = false ->
  IsEmpty o1 = IsEmpty o2
  /\ (forall d, Or o1 d = Or o2 d)
  /\ (forall h, ToPtr o1 h = ToPtr o2 h)
  /\ MarshalJSON o1 = MarshalJSON o2
  /\ (Get o1 = Get o2 <-> value o1 = value o2).
Proof.
  intros H1 H2. unfold IsEmpty, Or, ToPtr, MarshalJSON, Get.
  rewrite H1, H2. simpl. repeat (split; [reflexivity|]).
  split; congruence.
Qed.

(** X10. On a valid receiver, [UnmarshalJSON] unsets the container with a
    nil error exactly on the inputs made of the letters [n], [u], [l],
    [l] in this order with any runs of space, newline, carriage return
    and tab before, between and after them. *)
Theorem UnmarshalJSON_unsets_iff l data h o :
  container l h = Some o ->
  UnmarshalJSON (Ptr l) data h = Some (<[l := VarOptional Empty]> h, None)
  <-> exists w0 w1 w2 w3 w4,
        data = w0 ++ x6e :: w1 ++ x75 :: w2 ++ x6c :: w3 ++ x6c :: w4
        /\ forallb is_space (w0 ++ w1 ++ w2 ++ w3 ++ w4) = true.
Proof.
  intros Hc.
  assert (Hlt : l < length h).
  { apply container_lookup, lookup_lt_Some in Hc. exact Hc. }
  assert (Hshape : bytes_eqb (trim data) null = true
    <-> exists w0 w1 w2 w3 w4,
          data = w0 ++ x6e :: w1 ++ x75 :: w2 ++ x6c :: w3 ++ x6c :: w4
          /\ forallb is_space (w0 ++ w1 ++ w2 ++ w3 ++ w4) = true).
  { rewrite bytes_eqb_eq, trim_filter. split.
    - intros Hf.
      apply filter_cons_split in Hf as (w0 & d0 & -> & H0 & Hf).
      apply filter_cons_split in Hf as (w1 & d1 & -> & H1 & Hf).
      apply filter_cons_split in Hf as (w2 & d2 & -> & H2 & Hf).
      apply filter_cons_split in Hf as (w3 & d3 & -> & H3 & Hf).
      apply filter_nil_spaces in Hf.
      exists w0, w1, w2, w3, d3. split; [reflexivity|].
      rewrite !forallb_app, H0, H1, H2, H3, Hf. reflexivity.
    - intros (w0 & w1 & w2 & w3 & w4 & -> & Hw).
      rewrite !forallb_app in Hw.
      apply andb_true_iff in Hw as [H0 Hw].
      apply andb_true_iff in Hw as [H1 Hw].
      apply andb_true_iff in Hw as [H2 Hw].
      apply andb_true_iff in Hw as [H3 H4].
      rewrite (filter_spaces_app w0) by exact H0. simpl.
      rewrite (filter_spaces_app w1) by exact H1. simpl.
      rewrite (filter_spaces_app w2) by exact H2. simpl.
      rewrite (filter_spaces_app w3) by exact H3. simpl.
      now rewrite (proj2 (filter_nil_spaces w4) H4). }
  rewrite <- Hshape.
  destruct (UnmarshalJSON_cases l data h o Hc)
    as [[Hn Hr]|[[Hn (v & e & Hd & Hr)]|[Hn (v & Hd & Hr)]]];
    rewrite Hr, Hn; split; try discriminate.
  - reflexivity.
  - reflexivity.
  - intros [= Hh].
    assert (Hl : (<[l := VarOptional (Set_ v o)]> h) !! l
                 = (<[l := VarOptional Empty]> h) !! l) by now rewrite Hh.
    rewrite !list_lookup_insert_eq in Hl by exact Hlt. discriminate.
Qed.

End Further.

(** X11. The loop of [UnmarshalJSON] never outgrows the capacity
    [len(data)] given to [trimmed]: after any prefix of the input the
    slice is no longer than the input.  Its result holds none of the four
    whitespace bytes, running the loop on it again changes nothing, and
    an input without those bytes comes out unchanged. *)
Theorem trim_within_capacity (data : list byte) :
  (forall pre post, data = pre ++ post ->
     (length (trim pre) <= length data)%nat)
  /\ (forall b, In b (trim data) ->
        b <> x20 /\ b <> x0a /\ b <> x0d /\ b <> x09)
  /\ trim (trim data) = trim data
  /\ (forallb kept data = true -> trim data = data).
Proof.
  split; [|split; [|split]].
  - intros pre post ->. rewrite trim_filter, length_app.
    pose proof (List.filter_length_le kept pre). lia.
  - intros b Hb. rewrite trim_filter in Hb.
    apply List.filter_In in Hb as [_ Hk].
    repeat split; intros ->; discriminate.
  - rewrite !trim_filter.
    induction data as [|b data IH]; simpl; [reflexivity|].
    destruct (kept b) eqn:Hb; simpl; [|exact IH].
    now rewrite Hb, IH.
  - rewrite trim_filter.
    induction data as [|b data IH]; simpl; [reflexivity|].
    intros Hk. apply andb_true_iff in Hk as [Hb Hk].
    now rewrite Hb, IH.
Qed.

(** X12. The copy [ToPtr] makes is shallow.  When the container holds a
    pointer to a variable, the new cell holds the same pointer: a store
    into that variable is seen through the container and through the
    copy alike, whereas replacing the pointer kept in the new cell leaves
    the container and the variable as they were. *)
Theorem ToPtr_shallow_copy (h : heap Ref.val) (c q : loc) (x : Ref.val)
    (o : Optional Ref.val) :
  container c h = Some o ->
  hasValue o = true ->
  value o = Ref.VRef (Ptr q) ->
  load q h = Some x ->
  exists l h1,
    ToPtr o h = (Ptr l, h1)
    /\ load l h1 = Some (Ref.VRef (Ptr q))
    /\ (forall w h2, store q w h1 = Some h2 ->
          container c h2 = Some o
          /\ load l h2 = Some (Ref.VRef (Ptr q))
          /\ load q h2 = Some w)
    /\ (forall q' h2, store l (Ref.VRef q') h1 = Some h2 ->
          container c h2 = Some o
          /\ load l h2 = Some (Ref.VRef q')
          /\ load q h2 = Some x).
Proof.
  intros Hc Hv Hval Hq. unfold ToPtr. rewrite Hv. simpl. rewrite Hval.
  exists (length h), (h ++ [VarT (Ref.VRef (Ptr q))]).
  destruct (alloc_fresh (VarT (Ref.VRef (Ptr q))) h) as (_ & Hat & Hold).
  simpl in Hat, Hold.
  assert (Hcl : c < length h).
  { apply container_lookup, lookup_lt_Some in Hc. exact Hc. }
  assert (Hql : q < length h).
  { apply load_lookup, lookup_lt_Some in Hq. exact Hq. }
  assert (Hcq : c <> q).
  { intros ->. apply container_lookup in Hc. apply load_lookup in Hq.
    congruence. }
  assert (Hlen : length (h ++ [VarT (Ref.VRef (Ptr q))]) = S (length h)).
  { rewrite length_app; simpl; lia. }
  split; [reflexivity|]. split; [now apply load_lookup|]. split.
  - intros w h2 Hs. apply store_inv in Hs as [_ ->]. repeat split.
    + apply container_lookup. rewrite list_lookup_insert_ne by congruence.
      rewrite Hold by lia. now apply container_lookup.
    + apply load_lookup. rewrite list_lookup_insert_ne by lia. exact Hat.
    + apply load_lookup. apply list_lookup_insert_eq. lia.
  - intros q' h2 Hs. apply store_inv in Hs as [_ ->]. repeat split.
    + apply container_lookup. rewrite list_lookup_insert_ne by lia.
      rewrite Hold by lia. now apply container_lookup.
    + apply load_lookup. apply list_lookup_insert_eq. lia.
    + apply load_lookup. rewrite list_lookup_insert_ne by lia.
      rewrite Hold by lia. now apply load_lookup.
Qed.

(** ** The further properties at sample inputs *)

Lemma FromPtr_after_ToPtr_witness :
  zero_when_absent (New 5%Z)
  /\ FromPtr (fst (ToPtr (New 5%Z) [])) (snd (ToPtr (New 5%Z) []))
     = Some (New 5%Z).
Proof.
  assert (Hz : zero_when_absent (New 5%Z)) by discriminate.
  split; [exact Hz|]. exact (FromPtr_after_ToPtr (New 5%Z) [] Hz).
Defined.

Lemma ToPtr_after_FromPtr_witness :
  FromPtr (Ptr 0) [VarT 5%Z] = Some (New 5%Z)
  /\ exists l' v,
       fst (ToPtr (New 5%Z) [VarT 5%Z]) = Ptr l'
       /\ l' <> 0%nat
       /\ load l' (snd (ToPtr (New 5%Z) [VarT 5%Z])) = Some v.
Proof.
  assert (Hf : FromPtr (Ptr 0) [VarT 5%Z] = Some (New 5%Z)) by reflexivity.
  split; [exact Hf|].
  destruct (ToPtr_after_FromPtr (Ptr 0) [VarT 5%Z] (New 5%Z) Hf)
    as (l' & v & Hp & Hne & _ & _ & Hl & _).
  exists l', v. split; [exact Hp|]. split; [exact Hne | exact Hl].
Defined.

Lemma ToPtr_twice_independent_witness :
  hasValue (New 1%Z) = true
  /\ exists l1 l2,
       fst (ToPtr (New 1%Z) []) = Ptr l1
       /\ fst (ToPtr (New 1%Z) (snd (ToPtr (New 1%Z) []))) = Ptr l2
       /\ l1 <> l2.
Proof.
  split; [reflexivity|].
  destruct (ToPtr_twice_independent (New 1%Z) [] eq_refl)
    as (l1 & l2 & H1 & H2 & Hne & _).
  exists l1, l2. split; [exact H1|]. split; [exact H2 | exact Hne].
Defined.

Lemma UnmarshalJSON_fast_path_redundant_witness :
  bytes_eqb (lit "null") (lit "null") = true
  /\ bytes_eqb (trim (lit "null")) (lit "null") = true.
Proof.
  split; [reflexivity|].
  destruct (UnmarshalJSON_fast_path_redundant (T := Z) (E := Int.error)
              0 (lit "null") []) as (_ & Hi & _).
  exact (Hi eq_refl).
Defined.




Lemma UnmarshalJSON_after_MarshalJSON_witness :
  MarshalJSON (New 42%Z) = (lit "42", None : option Int.error)
  /\ exists h',
       UnmarshalJSON (E := Int.error) (Ptr 0) (lit "42")
         [VarOptional (Empty : Optional Z)] = Some (h', None)
       /\ container 0 h' = Some (New 42%Z).
Proof.
  assert (Hm : MarshalJSON (New 42%Z) = (lit "42", None : option Int.error))
    by reflexivity.
  split; [exact Hm|].
  apply (UnmarshalJSON_after_MarshalJSON
           0 [VarOptional (Empty : Optional Z)] Empty (New 42%Z) (lit "42")).
  - reflexivity.
  - discriminate.
  - exact Hm.
  - intros _. split; reflexivity.
Defined.

Lemma absent_slot_only_seen_by_Get_witness :
  hasValue (mkOptional 5%Z false) = false
  /\ hasValue (Empty : Optional Z) = false
  /\ Or (mkOptional 5%Z false) 42%Z = Or (Empty : Optional Z) 42%Z
  /\ MarshalJSON (E := Int.error) (mkOptional 5%Z false)
     = MarshalJSON (Empty : Optional Z).
Proof.
  split; [reflexivity|]. split; [reflexivity|].
  destruct (absent_slot_only_seen_by_Get (E := Int.error)
              (mkOptional 5%Z false) (Empty : Optional Z) eq_refl eq_refl)
    as (_ & Hor & _ & Hm & _).
  split; [exact (Hor 42%Z) | exact Hm].
Defined.

Lemma UnmarshalJSON_unsets_iff_witness :
  container 0 [VarOptional (New 7%Z)] = Some (New 7%Z)
  /\ UnmarshalJSON (E := Int.error) (Ptr 0) (lit "n u l l")
       [VarOptional (New 7%Z)]
     = Some (<[0%nat := VarOptional Empty]> [VarOptional (New 7%Z)], None).
Proof.
  split; [reflexivity|].
  apply (UnmarshalJSON_unsets_iff (E := Int.error)
           0 (lit "n u l l") [VarOptional (New 7%Z)] (New 7%Z) eq_refl).
  exists [], [x20], [x20], [x20], []. split; reflexivity.
Defined.

Lemma trim_within_capacity_witness :
  (length (trim (lit " nu")) <= length (lit " null "))%nat
  /\ trim (lit "42") = lit "42".
Proof.
  destruct (trim_within_capacity (lit " null ")) as (Hcap & _).
  destruct (trim_within_capacity (lit "42")) as (_ & _ & _ & Hid).
  split; [exact (Hcap (lit " nu") (lit "ll ") eq_refl) | exact (Hid eq_refl)].
Defined.

(** The pointer cases of the package's test of [ToPtr]: [x := 10],
    [o := New(&x)], [p := o.ToPtr()]; then [**p = 77] shows in [x], and
    [*p = &y] does not show in [o]. *)
Lemma ToPtr_shallow_copy_witness :
  let h := [VarT (Ref.VInt 10); VarOptional (New (Ref.VRef (Ptr 0)))] in
  exists l h1,
    ToPtr (New (Ref.VRef (Ptr 0))) h = (Ptr l, h1)
    /\ (forall h2, store 0 (Ref.VInt 77) h1 = Some h2 ->
          container 1 h2 = Some (New (Ref.VRef (Ptr 0)))
          /\ load 0 h2 = Some (Ref.VInt 77))
    /\ (forall h2, store l (Ref.VRef (Ptr 5)) h1 = Some h2 ->
          container 1 h2 = Some (New (Ref.VRef (Ptr 0)))
          /\ load 0 h2 = Some (Ref.VInt 10)).
Proof.
  intros h.
  destruct (ToPtr_shallow_copy h 1 0 (Ref.VInt 10) (New (Ref.VRef (Ptr 0)))
              eq_refl eq_refl eq_refl eq_refl)
    as (l & h1 & Hp & _ & Hthrough & Hreplace).
  exists l, h1. split; [exact Hp|]. split.
  - intros h2 Hs. destruct (Hthrough _ _ Hs) as (Hc & _ & Hx). now split.
  - intros h2 Hs. destruct (Hreplace _ _ Hs) as (Hc & _ & Hx). now split.
Defined.
